(** * ParcelStore: a shallow embedding of [parcel.go]

    The store of [parcel.go] is a thin layer over one SQL table.  Each of its
    methods issues exactly one statement through [database/sql] and hands the
    engine's answer back.  The embedding therefore has two layers:

    - [Sql]: the engine as the store sees it, a table of rows together with
      the AUTOINCREMENT counter, and the four statement shapes the store
      uses (insert, select, update, delete, each with its WHERE predicate
      passed as a boolean function on rows);
    - the methods [Add], [Get], [GetByClient], [SetStatus], [SetAddress] and
      [Delete], written as state-passing functions over the database, with
      Go's [(value, error)] results kept as pairs.

    Integers are [Z]; Go's [int] is taken to be 64 bits wide, as it is on
    the platforms the sqlite driver supports.  The engine is a working one:
    the only failure it can report is the exhaustion of the key space on
    insert; lost connections and the like are outside the model. *)

From Stdlib Require Import ZArith List String Bool Lia Permutation.
Import ListNotations.

Local Open Scope Z_scope.

(** ** Go values *)

Definition int64_max : Z := 2 ^ 63 - 1.

(** The conversion [int(id)] of an [int64]: wrap-around into the signed
    64-bit range. *)
Definition int_of_int64 (z : Z) : Z := (z + 2 ^ 63) mod 2 ^ 64 - 2 ^ 63.

(** Modelled from the spec: the struct [Parcel], declared outside
    [parcel.go].  The fields and their types follow section 3 of the
    specification, and their order the [Scan] calls of [Get] and
    [GetByClient]. *)
Record Parcel : Type := mkParcel {
  Number : Z;
  Client : Z;
  Status : string;
  Address : string;
  CreatedAt : string
}.

(** [Parcel{}], Go's zero value. *)
Definition Parcel_zero : Parcel := mkParcel 0 0 "" "" "".

(** Modelled from the spec: the constant [ParcelStatusRegistered], declared
    outside [parcel.go]; the specification names the sentinel [registered],
    which is also the literal the SQL of [SetAddress] and [Delete] carries. *)
Definition ParcelStatusRegistered : string := "registered".

(** Errors a method can return: [sql.ErrNoRows], raised by [Row.Scan], and a
    failure of the engine itself. *)
Inductive error : Type :=
  | ErrNoRows
  | ErrEngine (msg : string).

(** ** The engine *)

Module Sql.

(** Modelled from the spec: the table [parcel] of section 6,
    [(number INTEGER PRIMARY KEY AUTOINCREMENT, client, status, address,
    created_at)], columns in that order. *)
Record Row : Type := mkRow {
  number : Z;
  client : Z;
  status : string;
  address : string;
  created_at : string
}.

(** The database: the rows of [parcel] in storage order, and the largest
    key AUTOINCREMENT has handed out so far. *)
Record DB : Type := mkDB {
  parcel : list Row;
  sequence : Z
}.

Definition empty : DB := mkDB [] 0.

(** [sql.Result]. *)
Record Result : Type := mkResult {
  lastInsertId : Z;
  rowsAffected : Z
}.

Definition Result_zero : Result := mkResult 0 0.

(** [INSERT INTO parcel (client, status, address, created_at) VALUES ...]:
    the key is the successor of the counter; once the largest 64-bit key has
    been used the engine refuses further inserts. *)
Definition insert (c : Z) (s a t : string) (db : DB)
  : (Result * option error) * DB :=
  if int64_max <=? sequence db
  then ((Result_zero, Some (ErrEngine "database or disk is full")), db)
  else
    let id := sequence db + 1 in
    ((mkResult id 1, None), mkDB (parcel db ++ [mkRow id c s a t]) id).

(** [SELECT * FROM parcel WHERE ...].  SQL leaves the order of the answer
    open; the rows are given here in storage order. *)
Definition select (where_ : Row -> bool) (db : DB) : list Row :=
  filter where_ (parcel db).

(** [UPDATE parcel SET ... WHERE ...]. *)
Definition update (set : Row -> Row) (where_ : Row -> bool) (db : DB)
  : (Result * option error) * DB :=
  ((mkResult (sequence db) (Z.of_nat (List.length (filter where_ (parcel db)))),
    None),
   mkDB (map (fun r => if where_ r then set r else r) (parcel db))
        (sequence db)).

(** [DELETE FROM parcel WHERE ...]. *)
Definition delete (where_ : Row -> bool) (db : DB)
  : (Result * option error) * DB :=
  ((mkResult (sequence db) (Z.of_nat (List.length (filter where_ (parcel db)))),
    None),
   mkDB (filter (fun r => negb (where_ r)) (parcel db)) (sequence db)).

(** [Result.LastInsertId]. *)
Definition LastInsertId (r : Result) : Z * option error :=
  (lastInsertId r, None).

(** [DB.QueryRow]: the first row of the answer, if there is one. *)
Definition QueryRow (where_ : Row -> bool) (db : DB) : option Row :=
  hd_error (select where_ db).

(** The assignment [Scan] makes, column by column, into
    [&p.Number, &p.Client, &p.Status, &p.Address, &p.CreatedAt]. *)
Definition assign (r : Row) : Parcel :=
  mkParcel (number r) (client r) (status r) (address r) (created_at r).

(** [Row.Scan]: [sql.ErrNoRows] when the query had no row, and the
    destination is then left as it was. *)
Definition Row_Scan (row : option Row) (p : Parcel) : Parcel * option error :=
  match row with
  | None => (p, Some ErrNoRows)
  | Some r => (assign r, None)
  end.

(** [Rows.Scan] on the current row of a cursor. *)
Definition Rows_Scan (r : Row) (p : Parcel) : Parcel * option error :=
  (assign r, None).

End Sql.

Import Sql.

(** ** The methods of [ParcelStore] *)

Definition Add (p : Parcel) (db : DB) : (Z * option error) * DB :=
  let '((result, err), db) :=
    insert (Client p) (Status p) (Address p) (CreatedAt p) db in
  match err with
  | Some e => ((0, Some e), db)
  | None =>
      let '(id, err) := LastInsertId result in
      match err with
      | Some e => ((0, Some e), db)
      | None => ((int_of_int64 id, None), db)
      end
  end.

Definition Get (n : Z) (db : DB) : Parcel * option error :=
  let row := QueryRow (fun r => number r =? n) db in
  let p := Parcel_zero in
  let '(p, err) := Row_Scan row p in
  match err with
  | Some e => (p, Some e)
  | None => (p, None)
  end.

(** The loop [for rows.Next() { ... res = append(res, p) }]. *)
Fixpoint GetByClient_loop (rows : list Row) (res : list Parcel)
  : list Parcel * option error :=
  match rows with
  | [] => (res, None)
  | r :: rows' =>
      let p := Parcel_zero in
      let '(p, err) := Rows_Scan r p in
      match err with
      | Some e => ([], Some e)
      | None => GetByClient_loop rows' (res ++ [p])
      end
  end.

Definition GetByClient (c : Z) (db : DB) : list Parcel * option error :=
  let rows := select (fun r => client r =? c) db in
  GetByClient_loop rows [].

Definition SetStatus (n : Z) (s : string) (db : DB) : option error * DB :=
  let '((_, err), db) :=
    update (fun r => mkRow (number r) (client r) s (address r) (created_at r))
           (fun r => number r =? n) db in
  (err, db).

Definition SetAddress (n : Z) (a : string) (db : DB) : option error * DB :=
  let '((_, err), db) :=
    update (fun r => mkRow (number r) (client r) (status r) a (created_at r))
           (fun r => (number r =? n) && (status r =? "registered")%string)
           db in
  (err, db).

Definition Delete (n : Z) (db : DB) : option error * DB :=
  let '((_, err), db) :=
    delete (fun r => (number r =? n) && (status r =? "registered")%string)
           db in
  (err, db).

(** ** The interface as a whole *)

(** One call of the interface. *)
Inductive op : Type :=
  | OpAdd (p : Parcel)
  | OpGet (n : Z)
  | OpGetByClient (c : Z)
  | OpSetStatus (n : Z) (s : string)
  | OpSetAddress (n : Z) (a : string)
  | OpDelete (n : Z).

(** The database a call leaves behind. *)
Definition run (o : op) (db : DB) : DB :=
  match o with
  | OpAdd p => snd (Add p db)
  | OpGet _ => db
  | OpGetByClient _ => db
  | OpSetStatus n s => snd (SetStatus n s db)
  | OpSetAddress n a => snd (SetAddress n a db)
  | OpDelete n => snd (Delete n db)
  end.

(** The error a call returns. *)
Definition raised (o : op) (db : DB) : option error :=
  match o with
  | OpAdd p => snd (fst (Add p db))
  | OpGet n => snd (Get n db)
  | OpGetByClient c => snd (GetByClient c db)
  | OpSetStatus n s => fst (SetStatus n s db)
  | OpSetAddress n a => fst (SetAddress n a db)
  | OpDelete n => fst (Delete n db)
  end.

(** The databases the interface can produce from the empty table. *)
Inductive reachable : DB -> Prop :=
  | reachable_empty : reachable empty
  | reachable_run o db : reachable db -> reachable (run o db).

(** The invariant of the table: keys are unique (PRIMARY KEY), every key
    has been handed out by the counter, and the counter is a 64-bit key. *)
Definition wf (db : DB) : Prop :=
  NoDup (map number (parcel db)) /\
  Forall (fun r => 1 <= number r <= sequence db) (parcel db) /\
  0 <= sequence db <= int64_max.

(** Row updates, as the SET clauses write them. *)
Definition with_status (s : string) (r : Row) : Row :=
  mkRow (number r) (client r) s (address r) (created_at r).

Definition with_address (a : string) (r : Row) : Row :=
  mkRow (number r) (client r) (status r) a (created_at r).

(** The row [Scan] reads a parcel from. *)
Definition row_of (p : Parcel) : Row :=
  mkRow (Number p) (Client p) (Status p) (Address p) (CreatedAt p).

Definition Row_eq_dec (x y : Row) : {x = y} + {x <> y}.
Proof. decide equality; auto using Z.eq_dec, string_dec. Defined.

Definition Parcel_eq_dec (x y : Parcel) : {x = y} + {x <> y}.
Proof. decide equality; auto using Z.eq_dec, string_dec. Defined.

(** No row of the list carries the key [n]. *)
Definition absent (n : Z) (rows : list Row) : Prop :=
  forall r, In r rows -> number r <> n.

(** A database to evaluate the methods on: two parcels of client 1000, the
    first still registered, the second already sent. *)
Definition sample : DB :=
  mkDB [mkRow 1 1000 "registered" "test" "2024-01-01T00:00:00Z";
        mkRow 2 1000 "sent" "depot" "2024-01-02T00:00:00Z"] 2.

(** ** Mutations, row by row *)

(** The key a mutation names in its WHERE clause. *)
Definition target (o : op) : option Z :=
  match o with
  | OpSetStatus n _ => Some n
  | OpSetAddress n _ => Some n
  | OpDelete n => Some n
  | _ => None
  end.

(** What a call other than [Add] does to one stored row: the row it leaves,
    or [None] when it deletes it. *)
Definition on_row (o : op) (r : Row) : option Row :=
  match o with
  | OpSetStatus n s => Some (if number r =? n then with_status s r else r)
  | OpSetAddress n a =>
      Some (if (number r =? n) && (status r =? "registered")%string
            then with_address a r else r)
  | OpDelete n =>
      if (number r =? n) && (status r =? "registered")%string
      then None else Some r
  | _ => Some r
  end.

Definition keep_some (f : Row -> option Row) (rows : list Row) : list Row :=
  flat_map (fun r => match f r with Some r' => [r'] | None => [] end) rows.

(** ** The tests of [parcel_test.go] *)

(** testify's checks as booleans: [NoError], [Error], [NotEmpty] on an
    [int], and [Equal] on parcels, strings and lengths. *)
Definition NoError (err : option error) : bool :=
  match err with
  | None => true
  | Some _ => false
  end.

Definition IsError (err : option error) : bool := negb (NoError err).

Definition NotEmpty (n : Z) : bool := negb (n =? 0).

Definition Equal_Parcel (expected actual : Parcel) : bool :=
  if Parcel_eq_dec expected actual then true else false.

(** [getTestParcel]; the time [time.Now()] returns is an argument. *)
Definition getTestParcel (now : string) : Parcel :=
  mkParcel 0 1000 ParcelStatusRegistered "test" now.

(** The assignments [parcel.Number = add] and [parcels[i].Client = client]. *)
Definition set_Number (n : Z) (p : Parcel) : Parcel :=
  mkParcel n (Client p) (Status p) (Address p) (CreatedAt p).

Definition set_Client (c : Z) (p : Parcel) : Parcel :=
  mkParcel (Number p) c (Status p) (Address p) (CreatedAt p).

(** A test returns whether it passed, and the database it leaves.  A failed
    [require] ends the test at once; a failed [assert] lets it go on. *)
Definition TestAddGetDelete (now : string) (db : DB) : bool * DB :=
  let parcel := getTestParcel now in
  let '((add, err), db) := Add parcel db in
  if negb (NoError err) then (false, db) else
  if negb (NotEmpty add) then (false, db) else
  let '(get, err) := Get add db in
  let parcel := set_Number add parcel in
  let ok1 := NoError err in
  let ok2 := Equal_Parcel parcel get in
  let '(err, db) := Delete add db in
  if negb (NoError err) then (false, db) else
  let '(_, err) := Get add db in
  let ok3 := IsError err in
  (ok1 && ok2 && ok3, db).

Definition TestSetAddress (now : string) (db : DB) : bool * DB :=
  let parcel := getTestParcel now in
  let '((add, err), db) := Add parcel db in
  if negb (NoError err) then (false, db) else
  if negb (NotEmpty add) then (false, db) else
  let newAddress := "new test address"%string in
  let '(err, db) := SetAddress add newAddress db in
  if negb (NoError err) then (false, db) else
  let '(get, err) := Get add db in
  let ok1 := NoError err in
  let ok2 := (newAddress =? Address get)%string in
  (ok1 && ok2, db).

Definition TestSetStatus (now : string) (db : DB) : bool * DB :=
  let parcel := getTestParcel now in
  let '((add, err), db) := Add parcel db in
  if negb (NoError err) then (false, db) else
  if negb (NotEmpty add) then (false, db) else
  let newStatus := "ParcelStatusSent"%string in
  let '(err, db) := SetStatus add newStatus db in
  if negb (NoError err) then (false, db) else
  let '(get, err) := Get add db in
  let ok1 := NoError err in
  let ok2 := (newStatus =? Status get)%string in
  (ok1 && ok2, db).

(** Go's [map[int]Parcel]: indexing a missing key gives the zero parcel. *)
Definition ParcelMap : Type := Z -> Parcel.

Definition ParcelMap_empty : ParcelMap := fun _ => Parcel_zero.

Definition ParcelMap_set (k : Z) (v : Parcel) (m : ParcelMap) : ParcelMap :=
  fun k' => if k' =? k then v else m k'.

(** The loop of [TestGetByClient] that adds the parcels one by one and
    files each under the number it got; [false] when a [require] in it
    fails. *)
Fixpoint TestGetByClient_add (parcels : list Parcel) (parcelMap : ParcelMap)
    (db : DB) : bool * ParcelMap * DB :=
  match parcels with
  | [] => (true, parcelMap, db)
  | p :: parcels' =>
      let '((id, err), db) := Add p db in
      if negb (NoError err) then (false, parcelMap, db) else
      if negb (NotEmpty id) then (false, parcelMap, db) else
      let p := set_Number id p in
      let parcelMap := ParcelMap_set id p parcelMap in
      TestGetByClient_add parcels' parcelMap db
  end.

(** [TestGetByClient]; the client id drawn from [randRange] and the three
    creation times are arguments. *)
Definition TestGetByClient (client : Z) (now0 now1 now2 : string) (db : DB)
  : bool * DB :=
  let parcels := [getTestParcel now0; getTestParcel now1;
                  getTestParcel now2] in
  let parcelMap := ParcelMap_empty in
  let parcels := map (set_Client client) parcels in
  let '(ok, parcelMap, db) := TestGetByClient_add parcels parcelMap db in
  if negb ok then (false, db) else
  let '(storedParcels, err) := GetByClient client db in
  if negb (NoError err) then (false, db) else
  if negb (Nat.eqb (List.length parcels) (List.length storedParcels))
  then (false, db) else
  (forallb (fun parcel => Equal_Parcel (parcelMap (Number parcel)) parcel)
           storedParcels,
   db).

(** * Auxiliary facts *)

Lemma int_of_int64_id z :
  - 2 ^ 63 <= z <= int64_max -> int_of_int64 z = z.
Proof.
  unfold int_of_int64, int64_max. intros H.
  rewrite Z.mod_small by lia. lia.
Qed.

Lemma assign_row_of p : assign (row_of p) = p.
Proof. now destruct p. Qed.

Lemma row_of_assign r : row_of (assign r) = r.
Proof. now destruct r. Qed.

Lemma assign_inj r r' : assign r = assign r' -> r = r'.
Proof. intros H. rewrite <- (row_of_assign r), H. apply row_of_assign. Qed.

Lemma wf_sample : wf sample.
Proof.
  unfold wf, sample, int64_max; simpl. repeat split; try lia.
  - repeat constructor; simpl; intuition lia.
  - repeat constructor; simpl; lia.
Qed.

Section Filters.

Variable n : Z.

Lemma filter_absent rows :
  absent n rows -> filter (fun r => number r =? n) rows = [].
Proof.
  induction rows as [|x rows IH]; intros H; simpl; [reflexivity|].
  destruct (Z.eqb_spec (number x) n) as [E|E].
  - exfalso. apply (H x); [now left | exact E].
  - apply IH. intros r Hr. apply H. now right.
Qed.

Lemma filter_nil_absent rows :
  filter (fun r => number r =? n) rows = [] -> absent n rows.
Proof.
  intros H r Hr E.
  assert (Hin : In r (filter (fun r => number r =? n) rows)).
  { apply filter_In. split; [exact Hr | now apply Z.eqb_eq]. }
  rewrite H in Hin. exact Hin.
Qed.

(** Under unique keys the query by key has exactly one answer. *)
Lemma filter_unique rows r :
  NoDup (map number rows) -> In r rows -> number r = n ->
  filter (fun r => number r =? n) rows = [r].
Proof.
  induction rows as [|x rows IH]; intros Hnd Hin Hn; [destruct Hin|].
  simpl in Hnd. inversion Hnd as [|k ks Hk Hnd' Heq]; subst k ks.
  simpl. destruct Hin as [->|Hin].
  - rewrite (proj2 (Z.eqb_eq _ _) Hn). f_equal.
    apply filter_absent. intros r' Hr' E. apply Hk.
    rewrite Hn, <- E. now apply in_map.
  - destruct (Z.eqb_spec (number x) n) as [E|E].
    + exfalso. apply Hk. rewrite E, <- Hn. now apply in_map.
    + now apply IH.
Qed.

End Filters.

(** ** What the methods leave in the table *)

Lemma SetStatus_rows n s db :
  SetStatus n s db =
  (None,
   mkDB (map (fun r => if number r =? n then with_status s r else r)
             (parcel db))
        (sequence db)).
Proof. reflexivity. Qed.

Lemma SetAddress_rows n a db :
  SetAddress n a db =
  (None,
   mkDB (map (fun r =>
                if (number r =? n) && (status r =? "registered")%string
                then with_address a r else r)
             (parcel db))
        (sequence db)).
Proof. reflexivity. Qed.

Lemma Delete_rows n db :
  Delete n db =
  (None,
   mkDB (filter (fun r =>
                   negb ((number r =? n) && (status r =? "registered")%string))
                (parcel db))
        (sequence db)).
Proof. reflexivity. Qed.

Lemma Add_full p db :
  int64_max <= sequence db ->
  Add p db = ((0, Some (ErrEngine "database or disk is full")), db).
Proof.
  intros H. unfold Add, insert.
  now rewrite (proj2 (Z.leb_le _ _) H).
Qed.

Lemma Add_fresh p db :
  sequence db < int64_max ->
  Add p db =
  ((int_of_int64 (sequence db + 1), None),
   mkDB (parcel db ++
         [mkRow (sequence db + 1) (Client p) (Status p) (Address p)
                (CreatedAt p)])
        (sequence db + 1)).
Proof.
  intros H. unfold Add, insert.
  now rewrite (proj2 (Z.leb_gt _ _) H).
Qed.

(** Either the counter is exhausted or the insert goes through. *)
Lemma Add_cases p db :
  (int64_max <= sequence db /\
   Add p db = ((0, Some (ErrEngine "database or disk is full")), db)) \/
  (sequence db < int64_max /\
   Add p db =
   ((int_of_int64 (sequence db + 1), None),
    mkDB (parcel db ++
          [mkRow (sequence db + 1) (Client p) (Status p) (Address p)
                 (CreatedAt p)])
         (sequence db + 1))).
Proof.
  destruct (Z_le_gt_dec int64_max (sequence db)) as [H|H].
  - left. split; [exact H | now apply Add_full].
  - right. split; [lia | apply Add_fresh; lia].
Qed.

(** A map that keeps the keys keeps the list of keys. *)
Lemma map_number_keep (f : Row -> Row) rows :
  (forall r, number (f r) = number r) ->
  map number (map f rows) = map number rows.
Proof.
  intros H. rewrite map_map. apply map_ext. exact H.
Qed.

Lemma NoDup_map_filter (f : Row -> bool) rows :
  NoDup (map number rows) -> NoDup (map number (filter f rows)).
Proof.
  induction rows as [|x rows IH]; intros H; simpl; [constructor|].
  simpl in H. inversion H as [|k ks Hk Hnd Heq]; subst k ks.
  destruct (f x); simpl; [constructor|]; auto.
  intros Hin. apply Hk. apply in_map_iff in Hin.
  destruct Hin as [r [E Hr]]. apply filter_In in Hr.
  rewrite <- E. apply in_map. tauto.
Qed.

(** ** The invariant is kept *)

Lemma wf_empty : wf empty.
Proof.
  unfold wf, empty, int64_max; simpl.
  repeat split; try constructor; lia.
Qed.

Lemma wf_SetStatus n s db : wf db -> wf (snd (SetStatus n s db)).
Proof.
  intros (Hnd & Hrg & Hsq). rewrite SetStatus_rows. unfold wf; simpl.
  repeat split; try tauto.
  - rewrite map_number_keep; [exact Hnd|].
    intros r. now destruct (number r =? n).
  - rewrite Forall_forall in *. intros r' Hr'.
    apply in_map_iff in Hr'. destruct Hr' as [r [<- Hr]].
    specialize (Hrg r Hr). now destruct (number r =? n).
Qed.

Lemma wf_SetAddress n a db : wf db -> wf (snd (SetAddress n a db)).
Proof.
  intros (Hnd & Hrg & Hsq). rewrite SetAddress_rows. unfold wf; simpl.
  repeat split; try tauto.
  - rewrite map_number_keep; [exact Hnd|].
    intros r. now destruct ((number r =? n) && _).
  - rewrite Forall_forall in *. intros r' Hr'.
    apply in_map_iff in Hr'. destruct Hr' as [r [<- Hr]].
    specialize (Hrg r Hr). now destruct ((number r =? n) && _).
Qed.

Lemma wf_Delete n db : wf db -> wf (snd (Delete n db)).
Proof.
  intros (Hnd & Hrg & Hsq). rewrite Delete_rows. unfold wf; simpl.
  repeat split; try tauto.
  - now apply NoDup_map_filter.
  - rewrite Forall_forall in *. intros r Hr.
    apply filter_In in Hr. apply Hrg. tauto.
Qed.

Lemma wf_Add p db : wf db -> wf (snd (Add p db)).
Proof.
  intros Hwf. destruct (Add_cases p db) as [[_ ->]|[Hlt ->]]; [exact Hwf|].
  destruct Hwf as (Hnd & Hrg & Hsq). unfold wf; simpl.
  rewrite Forall_forall in Hrg. repeat split; try lia.
  - rewrite map_app; simpl.
    apply NoDup_app; [exact Hnd | repeat constructor; intros [] |].
    intros k Hk [<-|[]]. apply in_map_iff in Hk.
    destruct Hk as [r [E Hr]]. specialize (Hrg r Hr). lia.
  - rewrite Forall_forall. intros r Hr. apply in_app_iff in Hr.
    destruct Hr as [Hr|[<-|[]]]; simpl; [|lia].
    specialize (Hrg r Hr). lia.
Qed.

Lemma wf_run o db : wf db -> wf (run o db).
Proof.
  intros H. destruct o; cbn [run];
    auto using wf_Add, wf_SetStatus, wf_SetAddress, wf_Delete.
Qed.

Lemma reachable_wf db : reachable db -> wf db.
Proof.
  induction 1 as [|o db _ IH]; [apply wf_empty | now apply wf_run].
Qed.

(** ** Reading one row *)

Lemma Get_unfold n db :
  Get n db =
  match filter (fun r => number r =? n) (parcel db) with
  | [] => (Parcel_zero, Some ErrNoRows)
  | r :: _ => (assign r, None)
  end.
Proof.
  unfold Get, QueryRow, select.
  now destruct (filter _ (parcel db)).
Qed.

Lemma Get_miss n db :
  absent n (parcel db) -> Get n db = (Parcel_zero, Some ErrNoRows).
Proof.
  intros H. rewrite Get_unfold. now rewrite filter_absent.
Qed.

Lemma Get_hit db r :
  NoDup (map number (parcel db)) -> In r (parcel db) ->
  Get (number r) db = (assign r, None).
Proof.
  intros Hnd Hin. rewrite Get_unfold.
  now rewrite (filter_unique (number r) (parcel db) r).
Qed.

Lemma Get_found n db :
  snd (Get n db) = None ->
  exists r, In r (parcel db) /\ number r = n /\ fst (Get n db) = assign r.
Proof.
  rewrite Get_unfold.
  destruct (filter _ (parcel db)) as [|r l] eqn:E; simpl; [discriminate|].
  intros _. exists r.
  assert (Hin : In r (filter (fun r => number r =? n) (parcel db)))
    by (rewrite E; now left).
  apply filter_In in Hin. destruct Hin as [Hin Hn].
  apply Z.eqb_eq in Hn. auto.
Qed.

Lemma Get_error n db :
  snd (Get n db) = None \/ snd (Get n db) = Some ErrNoRows.
Proof.
  rewrite Get_unfold. destruct (filter _ (parcel db)); simpl; auto.
Qed.

Lemma unique_key db r r' :
  NoDup (map number (parcel db)) ->
  In r (parcel db) -> In r' (parcel db) -> number r' = number r -> r' = r.
Proof.
  intros Hnd Hr Hr' E.
  pose proof (filter_unique (number r) (parcel db) r Hnd Hr eq_refl) as F1.
  pose proof (filter_unique (number r) (parcel db) r' Hnd Hr' E) as F2.
  congruence.
Qed.

(** ** Reading the rows of a client *)

Lemma GetByClient_loop_spec rows : forall res,
  GetByClient_loop rows res = (res ++ map assign rows, None).
Proof.
  induction rows as [|r rows IH]; intros res; simpl.
  - now rewrite app_nil_r.
  - rewrite IH, <- app_assoc. reflexivity.
Qed.

Lemma GetByClient_rows c db :
  GetByClient c db =
  (map assign (filter (fun r => client r =? c) (parcel db)), None).
Proof.
  unfold GetByClient, select. now rewrite GetByClient_loop_spec.
Qed.

Lemma count_occ_map_assign rows p :
  count_occ Parcel_eq_dec (map assign rows) p =
  count_occ Row_eq_dec rows (row_of p).
Proof.
  induction rows as [|r rows IH]; cbn [map count_occ]; [reflexivity|].
  destruct (Parcel_eq_dec (assign r) p) as [E|E];
    destruct (Row_eq_dec r (row_of p)) as [F|F].
  - now rewrite IH.
  - exfalso. apply F. rewrite <- E. symmetry. apply row_of_assign.
  - exfalso. apply E. rewrite F. apply assign_row_of.
  - exact IH.
Qed.

Lemma count_occ_filter (f : Row -> bool) rows r :
  count_occ Row_eq_dec (filter f rows) r =
  if f r then count_occ Row_eq_dec rows r else 0%nat.
Proof.
  induction rows as [|x rows IH]; cbn [filter count_occ];
    [now destruct (f r)|].
  destruct (Row_eq_dec x r) as [->|E].
  - destruct (f r) eqn:F; cbn [count_occ]; [|exact IH].
    destruct (Row_eq_dec r r); [now rewrite IH | contradiction].
  - destruct (f x); cbn [count_occ]; [|exact IH].
    destruct (Row_eq_dec x r); [contradiction | exact IH].
Qed.

(** ** Updates seen through the key *)

Section KeyPreserving.

Variable g : Row -> Row.
Hypothesis g_number : forall r, number (g r) = number r.

Lemma filter_key_map m rows :
  filter (fun r => number r =? m) (map g rows) =
  map g (filter (fun r => number r =? m) rows).
Proof.
  induction rows as [|x rows IH]; simpl; [reflexivity|].
  rewrite g_number. destruct (number x =? m); simpl; now rewrite IH.
Qed.

Lemma Get_map m db k :
  Get m (mkDB (map g (parcel db)) k) =
  match filter (fun r => number r =? m) (parcel db) with
  | [] => (Parcel_zero, Some ErrNoRows)
  | r :: _ => (assign (g r), None)
  end.
Proof.
  rewrite Get_unfold. cbn [parcel]. rewrite filter_key_map.
  now destruct (filter _ (parcel db)).
Qed.

Lemma Get_map_hit db k r :
  NoDup (map number (parcel db)) -> In r (parcel db) ->
  Get (number r) (mkDB (map g (parcel db)) k) = (assign (g r), None).
Proof.
  intros Hnd Hin. rewrite Get_map.
  now rewrite (filter_unique (number r) (parcel db) r).
Qed.

(** An update that only rewrites rows of key [n] leaves the others in
    place. *)
Lemma filter_other_map n rows :
  (forall r, number r <> n -> g r = r) ->
  filter (fun r => negb (number r =? n)) (map g rows) =
  filter (fun r => negb (number r =? n)) rows.
Proof.
  intros Hg. induction rows as [|x rows IH]; simpl; [reflexivity|].
  rewrite g_number. destruct (Z.eqb_spec (number x) n) as [E|E]; simpl.
  - exact IH.
  - now rewrite IH, Hg.
Qed.

Lemma Get_other_map n m db k :
  (forall r, number r <> n -> g r = r) -> m <> n ->
  Get m (mkDB (map g (parcel db)) k) = Get m db.
Proof.
  intros Hg Hm. rewrite Get_map, Get_unfold.
  destruct (filter _ (parcel db)) as [|r l] eqn:E; [reflexivity|].
  assert (Hin : In r (filter (fun r => number r =? m) (parcel db)))
    by (rewrite E; now left).
  apply filter_In in Hin. destruct Hin as [_ Hr]. apply Z.eqb_eq in Hr.
  rewrite Hg; [reflexivity | lia].
Qed.

End KeyPreserving.

Lemma map_fixed (g : Row -> Row) rows :
  (forall r, In r rows -> g r = r) -> map g rows = rows.
Proof.
  intros H. rewrite <- (map_id rows) at 2. now apply map_ext_in.
Qed.

Lemma filter_all (f : Row -> bool) rows :
  (forall r, In r rows -> f r = true) -> filter f rows = rows.
Proof.
  induction rows as [|x rows IH]; intros H; simpl; [reflexivity|].
  rewrite (H x) by now left. f_equal. apply IH.
  intros r Hr. apply H. now right.
Qed.

Lemma DB_eta db : mkDB (parcel db) (sequence db) = db.
Proof. now destruct db. Qed.

(** The WHERE clause of [SetAddress] and [Delete]. *)
Lemma gate_true n r :
  (number r =? n) && (status r =? "registered")%string = true <->
  number r = n /\ status r = "registered"%string.
Proof.
  rewrite andb_true_iff, Z.eqb_eq, String.eqb_eq. reflexivity.
Qed.

Lemma gate_false n r :
  (number r =? n) && (status r =? "registered")%string = false <->
  number r <> n \/ status r <> "registered"%string.
Proof.
  rewrite andb_false_iff, Z.eqb_neq, String.eqb_neq. reflexivity.
Qed.

Lemma Delete_filter_other n rows :
  filter (fun r => negb (number r =? n))
         (filter (fun r =>
                    negb ((number r =? n) &&
                          (status r =? "registered")%string)) rows) =
  filter (fun r => negb (number r =? n)) rows.
Proof.
  induction rows as [|x rows IH]; simpl; [reflexivity|].
  destruct (number x =? n) eqn:E; simpl.
  - destruct (status x =? "registered")%string; simpl; [exact IH|].
    rewrite E; simpl. exact IH.
  - rewrite E; simpl. now rewrite IH.
Qed.

(** Under unique keys, deleting a registered row leaves no row of its
    key. *)
Lemma Delete_absent n db r :
  NoDup (map number (parcel db)) ->
  In r (parcel db) -> number r = n -> status r = "registered"%string ->
  absent n (parcel (snd (Delete n db))).
Proof.
  intros Hnd Hin Hn Hst r' Hr' Hn'.
  rewrite Delete_rows in Hr'; cbn [snd parcel] in Hr'.
  apply filter_In in Hr'.
  destruct Hr' as [Hr' G]. apply negb_true_iff, gate_false in G.
  assert (r' = r) by (apply (unique_key db); congruence).
  subst r'. tauto.
Qed.

(** ** The scenario of the specification, evaluated *)

(** Insert a registered parcel, change its address, mark it sent, then try
    to change the address and to delete it: the last two calls succeed and
    change nothing. *)
Example scenario :
  let p := mkParcel 0 1000 ParcelStatusRegistered "test"
                    "2024-01-01T00:00:00Z" in
  let '((N, e0), db0) := Add p empty in
  let '(e1, db1) := SetAddress N "new address" db0 in
  let '(e2, db2) := SetStatus N "sent" db1 in
  let '(e3, db3) := SetAddress N "blocked" db2 in
  let '(e4, db4) := Delete N db3 in
  N = 1 /\
  [e0; e1; e2; e3; e4] = [None; None; None; None; None] /\
  Get N db1 =
  (mkParcel 1 1000 "registered" "new address" "2024-01-01T00:00:00Z", None) /\
  Get N db4 =
  (mkParcel 1 1000 "sent" "new address" "2024-01-01T00:00:00Z", None).
Proof. vm_compute. repeat split. Qed.

(** * The store's contract *)

(** ** Add, then Get *)

(** C3. Round trip: on a table that satisfies its invariant, whenever
    [Add p] succeeds and returns the number [N], [Get N] on the resulting
    table succeeds and returns the parcel whose [Client], [Status],
    [Address] and [CreatedAt] are those of [p] and whose [Number] is [N]. *)
Theorem Add_Get_roundtrip p db N db' :
  wf db ->
  Add p db = ((N, None), db') ->
  Get N db' =
  (mkParcel N (Client p) (Status p) (Address p) (CreatedAt p), None).
Proof.
  intros Hwf HAdd.
  pose proof (wf_Add p db Hwf) as Hwf'. rewrite HAdd in Hwf'.
  destruct (Add_cases p db) as [[_ E]|[Hlt E]];
    rewrite E in HAdd; [discriminate|].
  destruct Hwf as (_ & _ & Hsq).
  rewrite int_of_int64_id in HAdd by (unfold int64_max in *; lia).
  injection HAdd as HN Hdb. subst N.
  set (r := mkRow (sequence db + 1) (Client p) (Status p) (Address p)
                  (CreatedAt p)).
  change (Get (number r) db' = (assign r, None)).
  apply Get_hit; [apply Hwf'|].
  rewrite <- Hdb. simpl. apply in_or_app. right. now left.
Qed.

Lemma Add_Get_roundtrip_witness :
  Get 3 (snd (Add (mkParcel 0 1000 "registered" "test"
                            "2024-01-01T00:00:00Z") sample)) =
  (mkParcel 3 1000 "registered" "test" "2024-01-01T00:00:00Z", None).
Proof.
  apply (Add_Get_roundtrip
           (mkParcel 0 1000 "registered" "test" "2024-01-01T00:00:00Z")
           sample 3).
  - exact wf_sample.
  - reflexivity.
Defined.

(** ** Get and the not-found error *)

(** C5. [Get n] returns [sql.ErrNoRows] exactly when no row carries the
    number [n], and it fails in no other way; no other call of the interface
    ever returns [sql.ErrNoRows]; and when [Get n] succeeds on a table that
    satisfies its invariant, exactly one row has the number [n], and the
    parcel returned has [Number] [n] and, as [Client], [Status], [Address]
    and [CreatedAt], the columns [client], [status], [address] and
    [created_at] of that row. *)
Theorem Get_not_found n db :
  wf db ->
  (snd (Get n db) = Some ErrNoRows <-> absent n (parcel db)) /\
  (snd (Get n db) <> None <-> absent n (parcel db)) /\
  (forall o d, raised o d = Some ErrNoRows -> exists m, o = OpGet m) /\
  (snd (Get n db) = None ->
   exists r, In r (parcel db) /\ number r = n /\
             fst (Get n db) =
             {| Number := n;
                Client := client r;
                Status := status r;
                Address := address r;
                CreatedAt := created_at r |} /\
             forall r', In r' (parcel db) -> number r' = n -> r' = r).
Proof.
  intros Hwf.
  assert (Hiff : snd (Get n db) = Some ErrNoRows <-> absent n (parcel db)).
  { split.
    - intros H. apply filter_nil_absent. rewrite Get_unfold in H.
      destruct (filter _ (parcel db)); [reflexivity | discriminate].
    - intros H. now rewrite Get_miss. }
  repeat split.
  - apply Hiff.
  - apply Hiff.
  - intros H. apply Hiff.
    destruct (Get_error n db) as [E|E]; [contradiction | exact E].
  - intros H. apply Hiff in H. congruence.
  - intros o d H. destruct o; cbn [raised] in H.
    + destruct (Add_cases p d) as [[_ E]|[_ E]]; rewrite E in H;
        discriminate.
    + now exists n0.
    + rewrite GetByClient_rows in H. discriminate.
    + rewrite SetStatus_rows in H. discriminate.
    + rewrite SetAddress_rows in H. discriminate.
    + rewrite Delete_rows in H. discriminate.
  - intros H. destruct (Get_found n db H) as [r (Hin & Hn & Hp)].
    exists r. repeat split; auto.
    + rewrite Hp. unfold assign. now rewrite Hn.
    + intros r' Hr' Hn'. apply (unique_key db); try tauto.
      * apply Hwf.
      * congruence.
Qed.

Lemma Get_not_found_witness :
  snd (Get 7 sample) = Some ErrNoRows /\
  fst (Get 2 sample) =
  {| Number := 2;
     Client := 1000;
     Status := "sent";
     Address := "depot";
     CreatedAt := "2024-01-02T00:00:00Z" |}.
Proof.
  split.
  - apply (Get_not_found 7 sample wf_sample).
    intros r [<-|[<-|[]]]; simpl; lia.
  - destruct (Get_not_found 2 sample wf_sample) as (_ & _ & _ & H).
    destruct (H eq_refl) as [r (Hin & Hn & Hp & _)].
    rewrite Hp.
    destruct Hin as [<-|[<-|[]]]; [discriminate Hn | reflexivity].
Defined.

(** ** GetByClient *)

(** C6. [GetByClient c] never fails, and the parcels it returns are exactly
    the scans of the stored rows whose [client] is [c]: every parcel occurs
    in the answer as often as its row occurs among the rows of the table when
    its client is [c], and not at all otherwise; when no row matches the
    answer is empty. *)
Theorem GetByClient_exact c db :
  snd (GetByClient c db) = None /\
  (forall p,
     count_occ Parcel_eq_dec (fst (GetByClient c db)) p =
     if Client p =? c
     then count_occ Row_eq_dec (parcel db) (row_of p)
     else 0%nat) /\
  (forall p,
     In p (fst (GetByClient c db)) <->
     exists r, In r (parcel db) /\ client r = c /\ p = assign r) /\
  ((forall r, In r (parcel db) -> client r <> c) ->
   fst (GetByClient c db) = []).
Proof.
  rewrite GetByClient_rows; cbn [fst snd]. repeat split.
  - intros p. rewrite count_occ_map_assign.
    now rewrite (count_occ_filter (fun r => client r =? c)).
  - intros H. apply in_map_iff in H. destruct H as [r [E Hr]].
    apply filter_In in Hr. destruct Hr as [Hr Hc].
    apply Z.eqb_eq in Hc. exists r. auto.
  - intros [r (Hr & Hc & ->)]. apply in_map. apply filter_In.
    split; [exact Hr | now apply Z.eqb_eq].
  - intros H. replace (filter _ (parcel db)) with (@nil Row); [reflexivity|].
    symmetry. induction (parcel db) as [|x rows IH]; [reflexivity|].
    simpl. destruct (Z.eqb_spec (client x) c) as [E|E].
    + exfalso. apply (H x); [now left | exact E].
    + apply IH. intros r Hr. apply H. now right.
Qed.

(** ** Add and the input's Number *)

(** C9. [Add] does not read the [Number] of its argument: two parcels that
    agree on [Client], [Status], [Address] and [CreatedAt] give the same
    returned number, the same error and the same table; and the number
    returned does not depend on the argument at all. *)
Theorem Add_ignores_Number p p' db :
  Client p = Client p' -> Status p = Status p' ->
  Address p = Address p' -> CreatedAt p = CreatedAt p' ->
  Add p db = Add p' db /\
  forall q, fst (fst (Add q db)) = fst (fst (Add p db)).
Proof.
  intros Hc Hs Ha Ht. split.
  - unfold Add. now rewrite Hc, Hs, Ha, Ht.
  - intros q.
    destruct (Add_cases q db) as [[H1 ->]|[H1 ->]];
      destruct (Add_cases p db) as [[H2 ->]|[H2 ->]]; try reflexivity; lia.
Qed.

Lemma Add_ignores_Number_witness :
  Add (mkParcel 0 1000 "registered" "test" "2024-01-01T00:00:00Z") sample =
  Add (mkParcel 42 1000 "registered" "test" "2024-01-01T00:00:00Z") sample.
Proof.
  apply (Add_ignores_Number
           (mkParcel 0 1000 "registered" "test" "2024-01-01T00:00:00Z")
           (mkParcel 42 1000 "registered" "test" "2024-01-01T00:00:00Z")
           sample); reflexivity.
Defined.

(** ** SetAddress and its gate *)

(** C1. On a table that satisfies its invariant, [SetAddress n a] returns no
    error, and for the stored row [r] of number [n]: when [r] is
    ["registered"] the row is replaced, in place, by [r] with the address
    [a] and [Get n] then returns it; when [r] is not ["registered"] the table
    is unchanged; so, for [a] different from the stored address, the address
    read back is [a] exactly when [r] was ["registered"].  When no row has
    the number [n] the table is unchanged as well. *)
Theorem SetAddress_gated n a db :
  wf db ->
  fst (SetAddress n a db) = None /\
  (forall r, In r (parcel db) -> number r = n ->
     (status r = "registered"%string ->
      Get n (snd (SetAddress n a db)) = (assign (with_address a r), None) /\
      forall i, nth_error (parcel db) i = Some r ->
                nth_error (parcel (snd (SetAddress n a db))) i =
                Some (with_address a r)) /\
     (status r <> "registered"%string -> snd (SetAddress n a db) = db) /\
     (address r <> a ->
      (Address (fst (Get n (snd (SetAddress n a db)))) = a <->
       status r = "registered"%string))) /\
  (absent n (parcel db) -> snd (SetAddress n a db) = db).
Proof.
  intros Hwf. destruct Hwf as (Hnd & _ & _).
  rewrite SetAddress_rows; cbn [fst snd].
  set (g := fun r : Row =>
              if (number r =? n) && (status r =? "registered")%string
              then with_address a r else r).
  assert (Hg : forall r, number (g r) = number r).
  { intros r. unfold g. now destruct ((number r =? n) && _). }
  assert (Hreg : forall r, In r (parcel db) -> number r = n ->
                 status r = "registered"%string ->
                 Get n (mkDB (map g (parcel db)) (sequence db)) =
                 (assign (with_address a r), None)).
  { intros r Hin Hn Hst. rewrite <- Hn.
    rewrite (Get_map_hit g Hg db _ r Hnd Hin).
    unfold g. now rewrite (proj2 (gate_true n r) (conj Hn Hst)). }
  assert (Hnot : forall r, In r (parcel db) -> number r = n ->
                 status r <> "registered"%string ->
                 mkDB (map g (parcel db)) (sequence db) = db).
  { intros r Hin Hn Hst. rewrite map_fixed; [apply DB_eta|].
    intros r' Hr'. unfold g.
    destruct ((number r' =? n) && _) eqn:G; [|reflexivity].
    apply gate_true in G. destruct G as [Hn' Hst'].
    assert (r' = r) by (apply (unique_key db); congruence).
    subst r'. contradiction. }
  split; [reflexivity|]. split.
  - intros r Hin Hn. repeat split.
    + now apply Hreg.
    + intros i Hi. cbn [parcel]. rewrite nth_error_map, Hi. simpl.
      unfold g. now rewrite (proj2 (gate_true n r) (conj Hn H)).
    + intros Hst. now apply (Hnot r).
    + intros Hread.
      destruct (string_dec (status r) "registered") as [Hst|Hst];
        [exact Hst|].
      rewrite (Hnot r Hin Hn Hst) in Hread.
      rewrite <- Hn, (Get_hit db r Hnd Hin) in Hread. simpl in Hread.
      contradiction.
    + intros Hst. now rewrite (Hreg r Hin Hn Hst).
  - intros Habs. rewrite map_fixed; [apply DB_eta|].
    intros r Hr. unfold g.
    destruct ((number r =? n) && _) eqn:G; [|reflexivity].
    apply gate_true in G. destruct G as [Hn' _]. now apply Habs in Hr.
Qed.

Lemma SetAddress_gated_witness :
  Get 1 (snd (SetAddress 1 "new address" sample)) =
  (mkParcel 1 1000 "registered" "new address" "2024-01-01T00:00:00Z", None) /\
  snd (SetAddress 2 "blocked" sample) = sample.
Proof.
  split.
  - destruct (SetAddress_gated 1 "new address" sample wf_sample)
      as (_ & H & _).
    apply (H (mkRow 1 1000 "registered" "test" "2024-01-01T00:00:00Z"));
      simpl; auto.
  - destruct (SetAddress_gated 2 "blocked" sample wf_sample) as (_ & H & _).
    apply (H (mkRow 2 1000 "sent" "depot" "2024-01-02T00:00:00Z"));
      simpl; auto.
    discriminate.
Defined.

(** ** SetStatus *)

(** C4. On a table that satisfies its invariant, [SetStatus n s] returns no
    error; the stored row [r] of number [n], whatever its status, is replaced
    in place by [r] with the status [s], and [Get n] then returns it; and
    when no row has the number [n] the table is unchanged. *)
Theorem SetStatus_unconditional n s db :
  wf db ->
  fst (SetStatus n s db) = None /\
  (forall r, In r (parcel db) -> number r = n ->
     Get n (snd (SetStatus n s db)) = (assign (with_status s r), None) /\
     forall i, nth_error (parcel db) i = Some r ->
               nth_error (parcel (snd (SetStatus n s db))) i =
               Some (with_status s r)) /\
  (absent n (parcel db) -> snd (SetStatus n s db) = db).
Proof.
  intros Hwf. destruct Hwf as (Hnd & _ & _).
  rewrite SetStatus_rows; cbn [fst snd].
  set (g := fun r : Row => if number r =? n then with_status s r else r).
  assert (Hg : forall r, number (g r) = number r).
  { intros r. unfold g. now destruct (number r =? n). }
  split; [reflexivity|]. split.
  - intros r Hin Hn. split.
    + rewrite <- Hn. rewrite (Get_map_hit g Hg db _ r Hnd Hin).
      unfold g. now rewrite (proj2 (Z.eqb_eq _ _) Hn).
    + intros i Hi. cbn [parcel]. rewrite nth_error_map, Hi. simpl.
      unfold g. now rewrite (proj2 (Z.eqb_eq _ _) Hn).
  - intros Habs. rewrite map_fixed; [apply DB_eta|].
    intros r Hr. unfold g.
    destruct (Z.eqb_spec (number r) n) as [E|E]; [|reflexivity].
    now apply Habs in Hr.
Qed.

Lemma SetStatus_unconditional_witness :
  Get 2 (snd (SetStatus 2 "delivered" sample)) =
  (mkParcel 2 1000 "delivered" "depot" "2024-01-02T00:00:00Z", None) /\
  snd (SetStatus 7 "delivered" sample) = sample.
Proof.
  split.
  - destruct (SetStatus_unconditional 2 "delivered" sample wf_sample)
      as (_ & H & _).
    apply (H (mkRow 2 1000 "sent" "depot" "2024-01-02T00:00:00Z"));
      simpl; auto.
  - apply (SetStatus_unconditional 7 "delivered" sample wf_sample).
    intros r [<-|[<-|[]]]; simpl; lia.
Defined.

(** ** Delete and its gate *)

(** C2. On a table that satisfies its invariant, [Delete n] returns no
    error; afterwards no row has the number [n], where one had it before,
    exactly when a stored row of number [n] was ["registered"]; in that case
    [Get n] reports [sql.ErrNoRows]; when no row of number [n] is
    ["registered"] the table is unchanged.  In particular, after a successful
    [Add] of a ["registered"] parcel, deleting the number [Add] returned makes
    [Get] on that number fail with [sql.ErrNoRows]. *)
Theorem Delete_gated n db :
  wf db ->
  fst (Delete n db) = None /\
  (((exists r, In r (parcel db) /\ number r = n) /\
    absent n (parcel (snd (Delete n db)))) <->
   (exists r, In r (parcel db) /\ number r = n /\
              status r = "registered"%string)) /\
  (forall r, In r (parcel db) -> number r = n ->
     status r = "registered"%string ->
     Get n (snd (Delete n db)) = (Parcel_zero, Some ErrNoRows)) /\
  ((forall r, In r (parcel db) -> number r = n ->
      status r <> "registered"%string) ->
   snd (Delete n db) = db) /\
  (forall p N db',
     Status p = "registered"%string ->
     Add p db = ((N, None), db') ->
     Get N (snd (Delete N db')) = (Parcel_zero, Some ErrNoRows)).
Proof.
  intros Hwf. pose proof Hwf as (Hnd & _ & Hsq).
  split; [now rewrite Delete_rows|]. split; [|split; [|split]].
  - split.
    + intros [[r [Hin Hn]] Habs]. exists r. repeat split; auto.
      destruct (string_dec (status r) "registered") as [Hst|Hst];
        [exact Hst|].
      exfalso. apply (Habs r); [|exact Hn].
      rewrite Delete_rows; cbn [snd parcel].
      apply filter_In. split; [exact Hin|].
      apply negb_true_iff, gate_false. now right.
    + intros [r (Hin & Hn & Hst)]. split; [now exists r|].
      now apply (Delete_absent n db r).
  - intros r Hin Hn Hst. apply Get_miss. now apply (Delete_absent n db r).
  - intros H. rewrite Delete_rows; cbn [snd].
    rewrite filter_all; [apply DB_eta|].
    intros r Hr. apply negb_true_iff, gate_false.
    destruct (Z.eq_dec (number r) n) as [E|E]; [right|left]; auto.
  - intros p N db' Hst HAdd.
    pose proof (wf_Add p db Hwf) as Hwf'. rewrite HAdd in Hwf'.
    destruct (Add_cases p db) as [[_ E]|[Hlt E]];
      rewrite E in HAdd; [discriminate|].
    rewrite int_of_int64_id in HAdd by (unfold int64_max in *; lia).
    injection HAdd as HN Hdb.
    apply Get_miss.
    apply (Delete_absent N db'
             (mkRow N (Client p) (Status p) (Address p) (CreatedAt p)));
      auto; [apply Hwf'|].
    rewrite <- Hdb, HN. cbn [parcel]. apply in_or_app. right. now left.
Qed.

Lemma Delete_gated_witness :
  Get 3 (snd (Delete 3 (snd (Add (mkParcel 0 1000 "registered" "test"
                                           "2024-01-01T00:00:00Z") sample)))) =
  (Parcel_zero, Some ErrNoRows).
Proof.
  apply (proj2 (proj2 (proj2 (proj2 (Delete_gated 3 sample wf_sample))))
           (mkParcel 0 1000 "registered" "test" "2024-01-01T00:00:00Z"));
    reflexivity.
Defined.

(** ** Reopening a parcel *)

(** C7. On a table that satisfies its invariant, for the stored row [r] of
    number [n], whatever its status: [SetStatus n "registered"] returns no
    error, and on the table it leaves, [SetAddress n a] sets the address of
    the row to [a] (as [Get n] then shows) and [Delete n] removes the row
    (no row has the number [n] any more and [Get n] reports
    [sql.ErrNoRows]). *)
Theorem registered_reopens_gate n a db r :
  wf db -> In r (parcel db) -> number r = n ->
  let db1 := snd (SetStatus n "registered" db) in
  fst (SetStatus n "registered" db) = None /\
  fst (SetAddress n a db1) = None /\
  Get n (snd (SetAddress n a db1)) =
  (assign (with_address a (with_status "registered" r)), None) /\
  fst (Delete n db1) = None /\
  absent n (parcel (snd (Delete n db1))) /\
  Get n (snd (Delete n db1)) = (Parcel_zero, Some ErrNoRows).
Proof.
  intros Hwf Hin Hn db1.
  pose proof (wf_SetStatus n "registered" db Hwf) as Hwf1. fold db1 in Hwf1.
  destruct (SetStatus_unconditional n "registered" db Hwf) as (E0 & H0 & _).
  destruct (H0 r Hin Hn) as [Hget _]. fold db1 in Hget.
  assert (Hin1 : In (with_status "registered" r) (parcel db1)).
  { destruct (Get_found n db1) as [r1 (Hr1 & _ & Hp)];
      [now rewrite Hget|].
    rewrite Hget in Hp. simpl in Hp. apply assign_inj in Hp. now subst r1. }
  destruct (SetAddress_gated n a db1 Hwf1) as (E1 & H1 & _).
  destruct (H1 _ Hin1 Hn) as ([Hset _] & _); [reflexivity|].
  destruct (Delete_gated n db1 Hwf1) as (E2 & Hrem & Hdel & _).
  repeat split; auto.
  - apply Hrem. exists (with_status "registered" r). auto.
  - apply (Hdel _ Hin1 Hn). reflexivity.
Qed.

Lemma registered_reopens_gate_witness :
  Get 2 (snd (SetAddress 2 "home" (snd (SetStatus 2 "registered" sample)))) =
  (mkParcel 2 1000 "registered" "home" "2024-01-02T00:00:00Z", None) /\
  Get 2 (snd (Delete 2 (snd (SetStatus 2 "registered" sample)))) =
  (Parcel_zero, Some ErrNoRows).
Proof.
  assert (Hin : In (mkRow 2 1000 "sent" "depot" "2024-01-02T00:00:00Z")
                   (parcel sample)) by (simpl; auto).
  destruct (registered_reopens_gate 2 "home" sample _ wf_sample Hin eq_refl)
    as (_ & _ & H1 & _ & _ & H2).
  split; [exact H1 | exact H2].
Defined.

(** ** The frame of a mutation *)

(** C10. [SetStatus n s], [SetAddress n a] and [Delete n] touch no row whose
    number differs from [n]: the rows of other numbers are the same rows, in
    the same order, before and after the call, the counter is unchanged, and
    [Get m] for [m] different from [n] returns what it returned before. *)
Theorem mutation_frame n m s a db o :
  m <> n ->
  o = OpSetStatus n s \/ o = OpSetAddress n a \/ o = OpDelete n ->
  filter (fun r => negb (number r =? n)) (parcel (run o db)) =
  filter (fun r => negb (number r =? n)) (parcel db) /\
  sequence (run o db) = sequence db /\
  Get m (run o db) = Get m db.
Proof.
  intros Hm [ -> | [ -> | -> ] ]; cbn [run].
  - rewrite SetStatus_rows; cbn [snd parcel sequence].
    set (g := fun r : Row => if number r =? n then with_status s r else r).
    assert (Hg : forall r, number (g r) = number r).
    { intros r. unfold g. now destruct (number r =? n). }
    assert (Hid : forall r, number r <> n -> g r = r).
    { intros r Hr. unfold g. now rewrite (proj2 (Z.eqb_neq _ _) Hr). }
    repeat split.
    + now apply filter_other_map.
    + now apply (Get_other_map g Hg n).
  - rewrite SetAddress_rows; cbn [snd parcel sequence].
    set (g := fun r : Row =>
                if (number r =? n) && (status r =? "registered")%string
                then with_address a r else r).
    assert (Hg : forall r, number (g r) = number r).
    { intros r. unfold g. now destruct ((number r =? n) && _). }
    assert (Hid : forall r, number r <> n -> g r = r).
    { intros r Hr. unfold g. now rewrite (proj2 (Z.eqb_neq _ _) Hr). }
    repeat split.
    + now apply filter_other_map.
    + now apply (Get_other_map g Hg n).
  - rewrite Delete_rows; cbn [snd parcel sequence].
    repeat split.
    + apply Delete_filter_other.
    + rewrite !Get_unfold; cbn [parcel].
      replace (filter (fun r => number r =? m)
                 (filter (fun r =>
                            negb ((number r =? n) &&
                                  (status r =? "registered")%string))
                         (parcel db)))
        with (filter (fun r => number r =? m) (parcel db)); [reflexivity|].
      induction (parcel db) as [|x rows IH]; simpl; [reflexivity|].
      destruct (Z.eqb_spec (number x) n) as [E|E]; simpl.
      * destruct (Z.eqb_spec (number x) m) as [F|F]; [congruence|].
        destruct (status x =? "registered")%string; simpl;
          [exact IH|].
        now rewrite (proj2 (Z.eqb_neq _ _) F).
      * now rewrite IH.
Qed.

Lemma mutation_frame_witness :
  Get 1 (run (OpDelete 2) sample) = Get 1 sample /\
  Get 2 (run (OpSetAddress 1 "new address") sample) = Get 2 sample.
Proof.
  split.
  - apply (mutation_frame 2 1 "" "" sample (OpDelete 2)); [lia | auto].
  - apply (mutation_frame 1 2 "" "new address" sample
             (OpSetAddress 1 "new address")); [lia | auto].
Defined.

(** ** What no call changes *)

(** C8. In every table reachable through the interface, a call leaves the
    [number], [client] and [created_at] of every stored row as they were:
    any row that carries the number of [r] afterwards has the client and the
    creation time of [r]; its status differs from that of [r] only when the
    call was [SetStatus] on that number with that status, and its address
    only when the call was [SetAddress] on that number with that address;
    and such a row exists unless the call was [Delete] on the number of a
    ["registered"] [r]. *)
Theorem identity_immutable o db r :
  reachable db -> In r (parcel db) ->
  (forall r', In r' (parcel (run o db)) -> number r' = number r ->
     client r' = client r /\ created_at r' = created_at r /\
     (status r' = status r \/ o = OpSetStatus (number r) (status r')) /\
     (address r' = address r \/ o = OpSetAddress (number r) (address r'))) /\
  ((exists r', In r' (parcel (run o db)) /\ number r' = number r) \/
   (o = OpDelete (number r) /\ status r = "registered"%string)).
Proof.
  intros Hreach Hin. pose proof (reachable_wf db Hreach) as Hwf.
  pose proof Hwf as (Hnd & Hrg & Hsq).
  assert (Hsame : forall r', In r' (parcel db) -> number r' = number r ->
                  client r' = client r /\ created_at r' = created_at r /\
                  (status r' = status r \/
                   o = OpSetStatus (number r) (status r')) /\
                  (address r' = address r \/
                   o = OpSetAddress (number r) (address r'))).
  { intros r' Hr' E. assert (r' = r) by now apply (unique_key db).
    subst r'. auto. }
  destruct o as [p|k|c|k s|k a|k]; cbn [run].
  - (* Add *)
    destruct (Add_cases p db) as [[_ ->]|[Hlt ->]]; cbn [snd parcel].
    + split; [exact Hsame | left; now exists r].
    + split.
      * intros r' Hr' E. apply in_app_iff in Hr'.
        destruct Hr' as [Hr'|[<-|[]]]; [now apply Hsame|].
        simpl in E. rewrite Forall_forall in Hrg.
        specialize (Hrg r Hin). lia.
      * left. exists r. split; [|reflexivity].
        apply in_or_app. now left.
  - split; [exact Hsame | left; now exists r].
  - split; [exact Hsame | left; now exists r].
  - (* SetStatus *)
    rewrite SetStatus_rows; cbn [snd parcel]. split.
    + intros r' Hr' E. apply in_map_iff in Hr'.
      destruct Hr' as [r0 [<- Hr0]].
      destruct (Z.eqb_spec (number r0) k) as [F|F].
      * simpl in E. assert (r0 = r) by now apply (unique_key db).
        subst r0. simpl. repeat split; auto. right. now rewrite F.
      * assert (r0 = r) by now apply (unique_key db).
        subst r0. auto.
    + left. exists (if number r =? k then with_status s r else r).
      split; [now apply (in_map (fun r => if number r =? k
                                         then with_status s r else r))|].
      now destruct (number r =? k).
  - (* SetAddress *)
    rewrite SetAddress_rows; cbn [snd parcel]. split.
    + intros r' Hr' E. apply in_map_iff in Hr'.
      destruct Hr' as [r0 [<- Hr0]].
      destruct ((number r0 =? k) && _) eqn:G.
      * apply gate_true in G. destruct G as [F _].
        simpl in E. assert (r0 = r) by now apply (unique_key db).
        subst r0. simpl. repeat split; auto. right. now rewrite F.
      * assert (r0 = r) by now apply (unique_key db).
        subst r0. auto.
    + left.
      exists (if (number r =? k) && (status r =? "registered")%string
              then with_address a r else r).
      split; [now apply (in_map (fun r =>
                if (number r =? k) && (status r =? "registered")%string
                then with_address a r else r))|].
      now destruct ((number r =? k) && _).
  - (* Delete *)
    rewrite Delete_rows; cbn [snd parcel]. split.
    + intros r' Hr' E. apply filter_In in Hr'. now apply Hsame.
    + destruct ((number r =? k) && (status r =? "registered")%string) eqn:G.
      * right. apply gate_true in G. destruct G as [-> ->]. auto.
      * left. exists r. split; [|reflexivity].
        apply filter_In. split; [exact Hin | now rewrite G].
Qed.

Lemma identity_immutable_witness :
  exists r', In r' (parcel (run (OpSetStatus 1 "sent")
                                (run (OpAdd (mkParcel 0 1000 "registered"
                                               "test" "2024-01-01T00:00:00Z"))
                                     empty))) /\
             number r' = 1 /\ client r' = 1000.
Proof.
  set (p := mkParcel 0 1000 "registered" "test" "2024-01-01T00:00:00Z").
  set (r := mkRow 1 1000 "registered" "test" "2024-01-01T00:00:00Z").
  assert (Hreach : reachable (run (OpAdd p) empty))
    by (apply reachable_run; apply reachable_empty).
  assert (Hin : In r (parcel (run (OpAdd p) empty))) by (simpl; auto).
  destruct (identity_immutable (OpSetStatus 1 "sent") _ r Hreach Hin)
    as [Hsame [[r' [Hr' Hn]]|[Hdel _]]]; [|discriminate].
  exists r'. split; [exact Hr'|]. split; [exact Hn|].
  now apply Hsame.
Defined.

(** * Further properties of the store *)

(** ** Mutations act row by row *)

Lemma keep_some_total (g : Row -> Row) rows :
  keep_some (fun r => Some (g r)) rows = map g rows.
Proof.
  induction rows as [|x rows IH]; simpl; [reflexivity | now rewrite IH].
Qed.

Lemma keep_some_filter (f : Row -> bool) rows :
  keep_some (fun r => if f r then None else Some r) rows =
  filter (fun r => negb (f r)) rows.
Proof.
  induction rows as [|x rows IH]; simpl; [reflexivity|].
  destruct (f x); simpl; now rewrite IH.
Qed.

Lemma keep_some_ext (f g : Row -> option Row) rows :
  (forall r, f r = g r) -> keep_some f rows = keep_some g rows.
Proof.
  intros H. induction rows as [|x rows IH]; simpl; [reflexivity|].
  now rewrite H, IH.
Qed.

Lemma keep_some_twice (f g : Row -> option Row) rows :
  keep_some g (keep_some f rows) =
  keep_some (fun r => match f r with Some r' => g r' | None => None end)
            rows.
Proof.
  induction rows as [|x rows IH]; simpl; [reflexivity|].
  unfold keep_some in *. rewrite flat_map_app, IH.
  destruct (f x); simpl; [now rewrite app_nil_r | reflexivity].
Qed.

Lemma run_on_row o db :
  (forall p, o <> OpAdd p) ->
  run o db = mkDB (keep_some (on_row o) (parcel db)) (sequence db).
Proof.
  intros H. destruct o as [p|k|c|k s|k a|k]; cbn [run].
  - now destruct (H p).
  - unfold on_row. rewrite (keep_some_total (fun r => r)), map_id.
    symmetry. apply DB_eta.
  - unfold on_row. rewrite (keep_some_total (fun r => r)), map_id.
    symmetry. apply DB_eta.
  - rewrite SetStatus_rows; cbn [snd]. unfold on_row.
    now rewrite (keep_some_total
                   (fun r => if number r =? k then with_status s r else r)).
  - rewrite SetAddress_rows; cbn [snd]. unfold on_row.
    now rewrite (keep_some_total
                   (fun r =>
                      if (number r =? k) && (status r =? "registered")%string
                      then with_address a r else r)).
  - rewrite Delete_rows; cbn [snd]. unfold on_row.
    now rewrite (keep_some_filter
                   (fun r =>
                      (number r =? k) && (status r =? "registered")%string)).
Qed.

Lemma target_not_Add o n : target o = Some n -> forall p, o <> OpAdd p.
Proof. intros H p ->. discriminate. Qed.

(** Two mutations in sequence, as one pass over the rows. *)
Lemma run_run_on_row o1 o2 db :
  (forall p, o1 <> OpAdd p) -> (forall p, o2 <> OpAdd p) ->
  run o2 (run o1 db) =
  mkDB (keep_some (fun r => match on_row o1 r with
                            | Some r' => on_row o2 r'
                            | None => None
                            end) (parcel db))
       (sequence db).
Proof.
  intros H1 H2. rewrite (run_on_row o2), (run_on_row o1) by assumption.
  cbn [parcel sequence]. now rewrite keep_some_twice.
Qed.

(** A mutation leaves rows of other keys alone and never changes a key. *)
Lemma on_row_other o n r :
  target o = Some n -> number r <> n -> on_row o r = Some r.
Proof.
  intros Ht Hr. destruct o; simpl in Ht; try discriminate;
    injection Ht as ->; simpl;
    now rewrite (proj2 (Z.eqb_neq _ _) Hr).
Qed.

Lemma on_row_number o r r' : on_row o r = Some r' -> number r' = number r.
Proof.
  destruct o as [p|k|c|k s|k a|k]; simpl; intros H.
  - now injection H as <-.
  - now injection H as <-.
  - now injection H as <-.
  - injection H as <-. now destruct (number r =? k).
  - injection H as <-. now destruct ((number r =? k) && _).
  - destruct ((number r =? k) && _); [discriminate | now injection H as <-].
Qed.

(** ** How mutations compose *)

(** Mutations that name different keys commute: [SetStatus], [SetAddress]
    and [Delete] on the number [n] and any of the three on a different
    number [m] leave the same table in either order. *)
Theorem mutations_commute o1 o2 n m db :
  target o1 = Some n -> target o2 = Some m -> n <> m ->
  run o1 (run o2 db) = run o2 (run o1 db).
Proof.
  intros H1 H2 Hnm.
  rewrite !run_run_on_row by eauto using target_not_Add.
  f_equal. apply keep_some_ext. intros r.
  destruct (Z.eq_dec (number r) n) as [E|E].
  - rewrite (on_row_other o2 m r H2) by congruence.
    destruct (on_row o1 r) as [r'|] eqn:F; [|reflexivity].
    apply on_row_number in F. symmetry.
    apply (on_row_other o2 m r' H2). congruence.
  - rewrite (on_row_other o1 n r H1 E).
    destruct (on_row o2 r) as [r'|] eqn:F; [|reflexivity].
    apply on_row_number in F.
    apply (on_row_other o1 n r' H1). congruence.
Qed.

Lemma mutations_commute_witness :
  run (OpDelete 1) (run (OpSetStatus 2 "registered") sample) =
  run (OpSetStatus 2 "registered") (run (OpDelete 1) sample).
Proof.
  apply (mutations_commute (OpDelete 1) (OpSetStatus 2 "registered") 1 2);
    [reflexivity | reflexivity | lia].
Defined.

(** The last write wins: a second [SetStatus] on the same number leaves the
    table the second alone would have left, and so does a second
    [SetAddress]. *)
Theorem last_write_wins n s1 s2 a1 a2 db :
  snd (SetStatus n s2 (snd (SetStatus n s1 db))) = snd (SetStatus n s2 db) /\
  snd (SetAddress n a2 (snd (SetAddress n a1 db))) =
  snd (SetAddress n a2 db).
Proof.
  split.
  - change (run (OpSetStatus n s2) (run (OpSetStatus n s1) db) =
            run (OpSetStatus n s2) db).
    rewrite run_run_on_row, run_on_row by discriminate.
    f_equal. apply keep_some_ext. intros r. simpl.
    destruct (number r =? n) eqn:E; simpl; now rewrite E.
  - change (run (OpSetAddress n a2) (run (OpSetAddress n a1) db) =
            run (OpSetAddress n a2) db).
    rewrite run_run_on_row, run_on_row by discriminate.
    f_equal. apply keep_some_ext. intros r. simpl.
    destruct ((number r =? n) && (status r =? "registered")%string) eqn:E;
      simpl; now rewrite E.
Qed.

(** [Delete] is idempotent: deleting the same number again changes
    nothing. *)
Theorem Delete_idempotent n db :
  snd (Delete n (snd (Delete n db))) = snd (Delete n db).
Proof.
  change (run (OpDelete n) (run (OpDelete n) db) = run (OpDelete n) db).
  rewrite run_run_on_row, run_on_row by discriminate.
  f_equal. apply keep_some_ext. intros r. simpl.
  destruct ((number r =? n) && (status r =? "registered")%string) eqn:E;
    simpl; now rewrite ?E.
Qed.

(** Once [SetStatus] has set a status other than ["registered"] on the
    number [n], [SetAddress] and [Delete] on [n] leave the table exactly as
    it is. *)
Theorem status_change_closes_gate n s a db :
  s <> "registered"%string ->
  let db1 := snd (SetStatus n s db) in
  SetAddress n a db1 = (None, db1) /\ Delete n db1 = (None, db1).
Proof.
  intros Hs db1.
  assert (Hs' : (s =? "registered")%string = false)
    by now apply String.eqb_neq.
  split.
  - rewrite SetAddress_rows. f_equal.
    change (run (OpSetAddress n a) (run (OpSetStatus n s) db) =
            run (OpSetStatus n s) db).
    rewrite run_run_on_row, run_on_row by discriminate.
    f_equal. apply keep_some_ext. intros r. simpl.
    destruct (number r =? n) eqn:E; simpl; rewrite E; simpl.
    + now rewrite Hs'.
    + reflexivity.
  - rewrite Delete_rows. f_equal.
    change (run (OpDelete n) (run (OpSetStatus n s) db) =
            run (OpSetStatus n s) db).
    rewrite run_run_on_row, run_on_row by discriminate.
    f_equal. apply keep_some_ext. intros r. simpl.
    destruct (number r =? n) eqn:E; simpl; rewrite E; simpl.
    + now rewrite Hs'.
    + reflexivity.
Qed.

Lemma status_change_closes_gate_witness :
  SetAddress 1 "blocked" (snd (SetStatus 1 "sent" sample)) =
  (None, snd (SetStatus 1 "sent" sample)) /\
  Delete 1 (snd (SetStatus 1 "sent" sample)) =
  (None, snd (SetStatus 1 "sent" sample)).
Proof.
  apply (status_change_closes_gate 1 "sent" "blocked" sample).
  discriminate.
Defined.

(** ** Add: fresh numbers, and what it leaves alone *)

Lemma Add_ok p db :
  wf db -> sequence db < int64_max ->
  Add p db =
  ((sequence db + 1, None),
   mkDB (parcel db ++
         [mkRow (sequence db + 1) (Client p) (Status p) (Address p)
                (CreatedAt p)])
        (sequence db + 1)).
Proof.
  intros (_ & _ & Hsq) Hlt. rewrite Add_fresh by exact Hlt.
  now rewrite int_of_int64_id by (unfold int64_max in *; lia).
Qed.

(** On a table that satisfies its invariant, the number a successful [Add]
    returns is positive, larger than every number stored, and one for which
    [Get] failed before the call. *)
Theorem Add_number_fresh p db N db' :
  wf db -> Add p db = ((N, None), db') ->
  1 <= N /\
  (forall r, In r (parcel db) -> number r < N) /\
  Get N db = (Parcel_zero, Some ErrNoRows) /\
  sequence db' = N.
Proof.
  intros Hwf HAdd. pose proof Hwf as (_ & Hrg & Hsq).
  destruct (Add_cases p db) as [[_ E]|[Hlt _]];
    [rewrite E in HAdd; discriminate|].
  rewrite (Add_ok p db Hwf Hlt) in HAdd. injection HAdd as HN Hdb.
  rewrite Forall_forall in Hrg.
  assert (Hbelow : forall r, In r (parcel db) -> number r < N).
  { intros r Hr. specialize (Hrg r Hr). lia. }
  repeat split.
  - lia.
  - exact Hbelow.
  - apply Get_miss. intros r Hr. specialize (Hbelow r Hr). lia.
  - now rewrite <- Hdb.
Qed.

Lemma Add_number_fresh_witness :
  1 <= 3 /\
  (forall r, In r (parcel sample) -> number r < 3) /\
  Get 3 sample = (Parcel_zero, Some ErrNoRows) /\
  sequence (snd (Add (getTestParcel "2024-01-01T00:00:00Z") sample)) = 3.
Proof.
  apply (Add_number_fresh (getTestParcel "2024-01-01T00:00:00Z") sample 3);
    [exact wf_sample | reflexivity].
Defined.

(** [Add] leaves every stored parcel as it was: a number that [Get] could
    read before the call reads the same parcel after it. *)
Theorem Add_keeps_parcels p m db :
  snd (Get m db) = None -> Get m (snd (Add p db)) = Get m db.
Proof.
  intros H. destruct (Add_cases p db) as [[_ ->]|[_ ->]]; [reflexivity|].
  cbn [snd]. rewrite !Get_unfold in *. cbn [parcel].
  rewrite filter_app.
  destruct (filter (fun r => number r =? m) (parcel db)); [discriminate|].
  reflexivity.
Qed.

Lemma Add_keeps_parcels_witness :
  Get 2 (snd (Add (getTestParcel "2024-01-01T00:00:00Z") sample)) =
  Get 2 sample.
Proof.
  apply (Add_keeps_parcels (getTestParcel "2024-01-01T00:00:00Z") 2 sample).
  reflexivity.
Defined.

(** ** GetByClient against Add and Get *)

(** After a successful [Add] on a table that satisfies its invariant, the
    answer of [GetByClient c] holds, in some order, the parcels it held
    before and, when the client of the added parcel is [c], that parcel
    under its new number; nothing else, and nothing twice that was there
    once. *)
Theorem GetByClient_after_Add p c db N db' :
  wf db -> Add p db = ((N, None), db') ->
  Permutation
    (fst (GetByClient c db'))
    ((if Client p =? c then [set_Number N p] else []) ++
     fst (GetByClient c db)).
Proof.
  intros Hwf HAdd.
  destruct (Add_cases p db) as [[_ E]|[Hlt _]];
    [rewrite E in HAdd; discriminate|].
  rewrite (Add_ok p db Hwf Hlt) in HAdd. injection HAdd as HN Hdb.
  rewrite !GetByClient_rows; cbn [fst]. rewrite <- Hdb; cbn [parcel].
  rewrite filter_app, map_app.
  eapply Permutation_trans; [apply Permutation_app_comm|].
  apply Permutation_app_tail. simpl.
  destruct (Client p =? c); [|apply Permutation_refl].
  simpl. unfold assign, set_Number. simpl. rewrite HN.
  apply Permutation_refl.
Qed.

Lemma GetByClient_after_Add_witness :
  Permutation
    (fst (GetByClient 1000
            (snd (Add (getTestParcel "2024-01-03T00:00:00Z") sample))))
    ([set_Number 3 (getTestParcel "2024-01-03T00:00:00Z")] ++
     fst (GetByClient 1000 sample)).
Proof.
  apply (GetByClient_after_Add (getTestParcel "2024-01-03T00:00:00Z") 1000
           sample 3);
    [exact wf_sample | reflexivity].
Defined.

(** The two reads agree: on a table that satisfies its invariant, a parcel
    is in the answer of [GetByClient c] exactly when its client is [c] and
    [Get] on its number returns it. *)
Theorem GetByClient_agrees_with_Get p c db :
  wf db ->
  (In p (fst (GetByClient c db)) <->
   Get (Number p) db = (p, None) /\ Client p = c).
Proof.
  intros (Hnd & _ & _). rewrite GetByClient_rows; cbn [fst]. split.
  - intros H. apply in_map_iff in H. destruct H as [r [<- Hr]].
    apply filter_In in Hr. destruct Hr as [Hr Hc]. apply Z.eqb_eq in Hc.
    split; [|exact Hc].
    change (Number (assign r)) with (number r). now apply Get_hit.
  - intros [HGet Hc].
    destruct (Get_found (Number p) db) as [r (Hr & _ & Hp)];
      [now rewrite HGet|].
    rewrite HGet in Hp; cbn [fst] in Hp. subst p.
    apply in_map. apply filter_In. split; [exact Hr|].
    now apply Z.eqb_eq.
Qed.

Lemma GetByClient_agrees_with_Get_witness :
  In (mkParcel 2 1000 "sent" "depot" "2024-01-02T00:00:00Z")
     (fst (GetByClient 1000 sample)).
Proof.
  apply (GetByClient_agrees_with_Get
           (mkParcel 2 1000 "sent" "depot" "2024-01-02T00:00:00Z") 1000
           sample wf_sample).
  split; reflexivity.
Defined.

(** On a table that satisfies its invariant, no two parcels in the answer
    of [GetByClient] carry the same number. *)
Theorem GetByClient_numbers_distinct c db :
  wf db -> NoDup (map Number (fst (GetByClient c db))).
Proof.
  intros (Hnd & _ & _). rewrite GetByClient_rows; cbn [fst].
  rewrite map_map.
  change (fun x => Number (assign x)) with number.
  now apply NoDup_map_filter.
Qed.

Lemma GetByClient_numbers_distinct_witness :
  NoDup (map Number (fst (GetByClient 1000 sample))).
Proof.
  apply (GetByClient_numbers_distinct 1000 sample wf_sample).
Defined.

(** In every table reachable through the interface, the query of [Get]
    selects at most one row, as the comment in [Get] expects. *)
Theorem Get_selects_at_most_one n db :
  reachable db ->
  (List.length (select (fun r => (number r =? n)%Z) db) <= 1)%nat.
Proof.
  intros Hreach. destruct (reachable_wf db Hreach) as (Hnd & _ & _).
  unfold select.
  destruct (filter (fun r => number r =? n) (parcel db)) as [|r l] eqn:E;
    [simpl; lia|].
  assert (Hin : In r (filter (fun r => number r =? n) (parcel db)))
    by (rewrite E; now left).
  apply filter_In in Hin. destruct Hin as [Hin Hn]. apply Z.eqb_eq in Hn.
  rewrite (filter_unique n (parcel db) r Hnd Hin Hn) in E.
  injection E as <-. simpl. lia.
Qed.

Lemma Get_selects_at_most_one_witness :
  (List.length (select (fun r => (number r =? 1)%Z)
                  (run (OpAdd (getTestParcel "2024-01-01T00:00:00Z"))
                       empty)) <= 1)%nat.
Proof.
  apply (Get_selects_at_most_one 1).
  apply reachable_run. apply reachable_empty.
Defined.

(** ** The tests, run on any table *)

Lemma Equal_Parcel_refl p : Equal_Parcel p p = true.
Proof. unfold Equal_Parcel. now destruct (Parcel_eq_dec p p). Qed.

Lemma Equal_Parcel_true p q : Equal_Parcel p q = true <-> p = q.
Proof.
  unfold Equal_Parcel. destruct (Parcel_eq_dec p q); split;
    congruence || discriminate.
Qed.

Lemma NotEmpty_fresh db : wf db -> NotEmpty (sequence db + 1) = true.
Proof.
  intros (_ & _ & Hsq). unfold NotEmpty.
  apply negb_true_iff, Z.eqb_neq. lia.
Qed.

(** The table after a successful insert, and the row it holds last. *)
Lemma Get_last db r :
  wf db -> number r = sequence db + 1 ->
  Get (sequence db + 1) (mkDB (parcel db ++ [r]) (sequence db + 1)) =
  (assign r, None).
Proof.
  intros (_ & Hrg & _) Hn. rewrite Get_unfold; cbn [parcel].
  rewrite filter_app, filter_absent; simpl.
  - now rewrite (proj2 (Z.eqb_eq _ _) Hn).
  - rewrite Forall_forall in Hrg. intros x Hx. specialize (Hrg x Hx). lia.
Qed.

Lemma Delete_last db r :
  wf db -> number r = sequence db + 1 -> status r = "registered"%string ->
  Delete (sequence db + 1) (mkDB (parcel db ++ [r]) (sequence db + 1)) =
  (None, mkDB (parcel db) (sequence db + 1)).
Proof.
  intros (_ & Hrg & _) Hn Hst. rewrite Delete_rows; cbn [parcel sequence].
  f_equal. f_equal. rewrite filter_app; simpl.
  rewrite (proj2 (gate_true (sequence db + 1) r) (conj Hn Hst)); simpl.
  rewrite app_nil_r. apply filter_all.
  rewrite Forall_forall in Hrg. intros x Hx. specialize (Hrg x Hx).
  apply negb_true_iff, gate_false. left. lia.
Qed.

Lemma Get_after_counter db k :
  wf db -> sequence db < k ->
  Get k (mkDB (parcel db) k) = (Parcel_zero, Some ErrNoRows).
Proof.
  intros (_ & Hrg & _) Hk. apply Get_miss; cbn [parcel].
  rewrite Forall_forall in Hrg. intros x Hx. specialize (Hrg x Hx). lia.
Qed.

(** [TestAddGetDelete] passes on a table that satisfies its invariant
    exactly when the key counter leaves room for one insert; it then leaves
    the rows of the table as it found them and the counter one higher. *)
Theorem TestAddGetDelete_passes now db :
  wf db ->
  (fst (TestAddGetDelete now db) = true <-> sequence db < int64_max) /\
  (sequence db < int64_max ->
   snd (TestAddGetDelete now db) = mkDB (parcel db) (sequence db + 1)).
Proof.
  intros Hwf. unfold TestAddGetDelete.
  destruct (Add_cases (getTestParcel now) db) as [[H E]|[H _]].
  - rewrite E; cbn [NoError negb fst snd]. split; [|lia].
    split; [discriminate | lia].
  - rewrite (Add_ok _ db Hwf H); cbn [NoError negb].
    rewrite (NotEmpty_fresh db Hwf); cbn [negb].
    set (r := mkRow (sequence db + 1) _ _ _ _).
    rewrite (Get_last db r Hwf eq_refl).
    rewrite (Delete_last db r Hwf eq_refl eq_refl); cbn [NoError negb].
    rewrite (Get_after_counter db _ Hwf) by lia.
    cbn [NoError IsError negb fst snd andb].
    split; [|reflexivity].
    split; [intros _; exact H | intros _].
    rewrite andb_true_r. apply Equal_Parcel_true. reflexivity.
Qed.

Lemma TestAddGetDelete_passes_witness :
  fst (TestAddGetDelete "2024-01-01T00:00:00Z" sample) = true /\
  snd (TestAddGetDelete "2024-01-01T00:00:00Z" sample) =
  mkDB (parcel sample) 3.
Proof.
  destruct (TestAddGetDelete_passes "2024-01-01T00:00:00Z" sample wf_sample)
    as [Hpass Hdb].
  split.
  - apply Hpass. unfold int64_max. simpl. lia.
  - apply Hdb. unfold int64_max. simpl. lia.
Defined.

Lemma SetAddress_last db r a :
  wf db -> number r = sequence db + 1 -> status r = "registered"%string ->
  SetAddress (sequence db + 1) a
             (mkDB (parcel db ++ [r]) (sequence db + 1)) =
  (None, mkDB (parcel db ++ [with_address a r]) (sequence db + 1)).
Proof.
  intros (_ & Hrg & _) Hn Hst. rewrite SetAddress_rows; cbn [parcel sequence].
  f_equal. f_equal. rewrite map_app; simpl.
  rewrite (proj2 (gate_true (sequence db + 1) r) (conj Hn Hst)).
  f_equal. apply map_fixed.
  rewrite Forall_forall in Hrg. intros x Hx. specialize (Hrg x Hx).
  replace ((number x =? sequence db + 1) && _) with false; [reflexivity|].
  symmetry. apply gate_false. left. lia.
Qed.

Lemma SetStatus_last db r s :
  wf db -> number r = sequence db + 1 ->
  SetStatus (sequence db + 1) s
            (mkDB (parcel db ++ [r]) (sequence db + 1)) =
  (None, mkDB (parcel db ++ [with_status s r]) (sequence db + 1)).
Proof.
  intros (_ & Hrg & _) Hn. rewrite SetStatus_rows; cbn [parcel sequence].
  f_equal. f_equal. rewrite map_app; simpl.
  rewrite (proj2 (Z.eqb_eq _ _) Hn).
  f_equal. apply map_fixed.
  rewrite Forall_forall in Hrg. intros x Hx. specialize (Hrg x Hx).
  replace (number x =? sequence db + 1) with false; [reflexivity|].
  symmetry. apply Z.eqb_neq. lia.
Qed.

(** [TestSetAddress] passes on a table that satisfies its invariant exactly
    when the key counter leaves room for one insert; it then leaves its
    parcel behind, with the new address, as the last row of the table. *)
Theorem TestSetAddress_passes now db :
  wf db ->
  (fst (TestSetAddress now db) = true <-> sequence db < int64_max) /\
  (sequence db < int64_max ->
   snd (TestSetAddress now db) =
   mkDB (parcel db ++
         [mkRow (sequence db + 1) 1000 "registered" "new test address" now])
        (sequence db + 1)).
Proof.
  intros Hwf. unfold TestSetAddress.
  destruct (Add_cases (getTestParcel now) db) as [[H E]|[H _]].
  - rewrite E; cbn [NoError negb fst snd]. split; [|lia].
    split; [discriminate | lia].
  - rewrite (Add_ok _ db Hwf H); cbn [NoError negb].
    rewrite (NotEmpty_fresh db Hwf); cbn [negb].
    set (r := mkRow (sequence db + 1) _ _ _ _).
    rewrite (SetAddress_last db r _ Hwf eq_refl eq_refl); cbn [NoError negb].
    rewrite (Get_last db (with_address "new test address" r) Hwf eq_refl).
    cbn [NoError fst snd andb].
    split; [|reflexivity].
    split; [intros _; exact H | intros _; reflexivity].
Qed.

Lemma TestSetAddress_passes_witness :
  fst (TestSetAddress "2024-01-01T00:00:00Z" sample) = true.
Proof.
  apply (TestSetAddress_passes "2024-01-01T00:00:00Z" sample wf_sample).
  unfold int64_max. simpl. lia.
Defined.

(** [TestSetStatus] passes on a table that satisfies its invariant exactly
    when the key counter leaves room for one insert; it then leaves its
    parcel behind, with the status ["ParcelStatusSent"], as the last row of
    the table. *)
Theorem TestSetStatus_passes now db :
  wf db ->
  (fst (TestSetStatus now db) = true <-> sequence db < int64_max) /\
  (sequence db < int64_max ->
   snd (TestSetStatus now db) =
   mkDB (parcel db ++
         [mkRow (sequence db + 1) 1000 "ParcelStatusSent" "test" now])
        (sequence db + 1)).
Proof.
  intros Hwf. unfold TestSetStatus.
  destruct (Add_cases (getTestParcel now) db) as [[H E]|[H _]].
  - rewrite E; cbn [NoError negb fst snd]. split; [|lia].
    split; [discriminate | lia].
  - rewrite (Add_ok _ db Hwf H); cbn [NoError negb].
    rewrite (NotEmpty_fresh db Hwf); cbn [negb].
    set (r := mkRow (sequence db + 1) _ _ _ _).
    rewrite (SetStatus_last db r _ Hwf eq_refl); cbn [NoError negb].
    rewrite (Get_last db (with_status "ParcelStatusSent" r) Hwf eq_refl).
    cbn [NoError fst snd andb].
    split; [|reflexivity].
    split; [intros _; exact H | intros _; reflexivity].
Qed.

Lemma TestSetStatus_passes_witness :
  fst (TestSetStatus "2024-01-01T00:00:00Z" sample) = true.
Proof.
  apply (TestSetStatus_passes "2024-01-01T00:00:00Z" sample wf_sample).
  unfold int64_max. simpl. lia.
Defined.

Lemma wf_insert db c s a t :
  wf db -> sequence db < int64_max ->
  wf (mkDB (parcel db ++ [mkRow (sequence db + 1) c s a t])
           (sequence db + 1)).
Proof.
  intros Hwf Hlt. pose proof (wf_Add (mkParcel 0 c s a t) db Hwf) as H.
  now rewrite (Add_ok _ db Hwf Hlt) in H.
Qed.

(** The adding loop stops with a failed [require] when the counter runs
    out before the parcels do. *)
Lemma TestGetByClient_add_full parcels : forall parcelMap db,
  wf db -> int64_max < sequence db + Z.of_nat (List.length parcels) ->
  fst (fst (TestGetByClient_add parcels parcelMap db)) = false.
Proof.
  induction parcels as [|p parcels IH]; intros parcelMap db Hwf Hfull.
  - simpl in Hfull. destruct Hwf as (_ & _ & Hsq). lia.
  - cbn [TestGetByClient_add].
    destruct (Add_cases p db) as [[H E]|[H _]].
    + now rewrite E.
    + rewrite (Add_ok p db Hwf H); cbn [NoError negb].
      rewrite (NotEmpty_fresh db Hwf); cbn [negb].
      apply IH; [now apply wf_insert|].
      cbn [sequence]. cbn [List.length] in Hfull. lia.
Qed.

(** The adding loop on the three parcels of the test, when the counter
    leaves room for them. *)
Lemma TestGetByClient_add_three c now0 now1 now2 db :
  wf db -> sequence db + 3 <= int64_max ->
  let k := sequence db in
  let p0 := mkParcel (k + 1) c "registered" "test" now0 in
  let p1 := mkParcel (k + 1 + 1) c "registered" "test" now1 in
  let p2 := mkParcel (k + 1 + 1 + 1) c "registered" "test" now2 in
  TestGetByClient_add
    (map (set_Client c)
         [getTestParcel now0; getTestParcel now1; getTestParcel now2])
    ParcelMap_empty db =
  (true,
   ParcelMap_set (k + 1 + 1 + 1) p2
     (ParcelMap_set (k + 1 + 1) p1
        (ParcelMap_set (k + 1) p0 ParcelMap_empty)),
   mkDB (((parcel db ++ [row_of p0]) ++ [row_of p1]) ++ [row_of p2])
        (k + 1 + 1 + 1)).
Proof.
  intros Hwf Hroom k p0 p1 p2.
  assert (Hwf1 : wf (mkDB (parcel db ++ [row_of p0]) (k + 1)))
    by (apply wf_insert; [exact Hwf | lia]).
  assert (Hwf2 : wf (mkDB ((parcel db ++ [row_of p0]) ++ [row_of p1])
                          (k + 1 + 1)))
    by (apply (wf_insert _ c "registered" "test" now1 Hwf1);
        cbn [sequence]; lia).
  cbn [map TestGetByClient_add].
  rewrite (Add_ok _ db Hwf) by lia; cbn [NoError negb].
  rewrite (NotEmpty_fresh db Hwf); cbn [negb].
  rewrite (Add_ok _ _ Hwf1) by (cbn [sequence]; lia); cbn [NoError negb].
  rewrite (NotEmpty_fresh _ Hwf1); cbn [negb].
  rewrite (Add_ok _ _ Hwf2) by (cbn [sequence]; lia); cbn [NoError negb].
  rewrite (NotEmpty_fresh _ Hwf2); cbn [negb].
  reflexivity.
Qed.

(** [TestGetByClient] passes on a table that satisfies its invariant exactly
    when the key counter leaves room for three inserts and the table holds
    no parcel of the client drawn for the test. *)
Theorem TestGetByClient_passes c now0 now1 now2 db :
  wf db ->
  (fst (TestGetByClient c now0 now1 now2 db) = true <->
   sequence db + 3 <= int64_max /\
   forall r, In r (parcel db) -> client r <> c).
Proof.
  intros Hwf. unfold TestGetByClient.
  destruct (Z_le_gt_dec (sequence db + 3) int64_max) as [Hroom|Hfull].
  - rewrite (TestGetByClient_add_three c now0 now1 now2 db Hwf Hroom).
    cbn [negb]. rewrite GetByClient_rows; cbn [NoError negb parcel].
    rewrite !filter_app. cbn [filter row_of client Client].
    rewrite Z.eqb_refl.
    destruct (filter (fun r => client r =? c) (parcel db)) as [|x l] eqn:F.
    + cbn [app map List.length Nat.eqb negb fst forallb assign row_of
           number client status address created_at Number].
      unfold ParcelMap_set.
      rewrite !Z.eqb_refl.
      replace (sequence db + 1 =? sequence db + 1 + 1 + 1) with false
        by (symmetry; apply Z.eqb_neq; lia).
      replace (sequence db + 1 =? sequence db + 1 + 1) with false
        by (symmetry; apply Z.eqb_neq; lia).
      replace (sequence db + 1 + 1 =? sequence db + 1 + 1 + 1) with false
        by (symmetry; apply Z.eqb_neq; lia).
      rewrite !Equal_Parcel_refl. cbn [andb].
      split; [intros _ | reflexivity].
      split; [exact Hroom|].
      intros r Hr Hc.
      assert (Hin : In r (filter (fun r => client r =? c) (parcel db)))
        by (apply filter_In; split; [exact Hr | now apply Z.eqb_eq]).
      now rewrite F in Hin.
    + replace (Nat.eqb _ _) with false.
      * cbn [negb fst]. split; [discriminate|].
        intros [_ Hnone]. exfalso.
        assert (Hin : In x (filter (fun r => client r =? c) (parcel db)))
          by (rewrite F; now left).
        apply filter_In in Hin. destruct Hin as [Hx Hc].
        apply Z.eqb_eq in Hc. now apply (Hnone x).
      * symmetry. apply Nat.eqb_neq.
        rewrite !length_map, !length_app. simpl. lia.
  - rewrite (surjective_pairing (TestGetByClient_add _ _ _)).
    rewrite (surjective_pairing (fst (TestGetByClient_add _ _ _))).
    rewrite TestGetByClient_add_full; [|exact Hwf | simpl; lia].
    cbn [negb fst]. split; [discriminate | lia].
Qed.

Lemma TestGetByClient_passes_witness :
  fst (TestGetByClient 7 "2024-01-01T00:00:00Z" "2024-01-01T00:00:01Z"
         "2024-01-01T00:00:02Z" sample) = true.
Proof.
  apply (TestGetByClient_passes 7 "2024-01-01T00:00:00Z"
           "2024-01-01T00:00:01Z" "2024-01-01T00:00:02Z" sample wf_sample).
  split.
  - unfold int64_max. simpl. lia.
  - intros r [<-|[<-|[]]]; simpl; lia.
Defined.

(** ** Get's answer, and the life of a number *)

(** The parcel a successful [Get n] returns carries the number [n]; a
    failed [Get] returns the zero parcel. *)
Theorem Get_returns_requested n db :
  (snd (Get n db) = None -> Number (fst (Get n db)) = n) /\
  (snd (Get n db) <> None -> fst (Get n db) = Parcel_zero).
Proof.
  split.
  - intros H. destruct (Get_found n db H) as [r (_ & Hn & ->)]. exact Hn.
  - intros H. rewrite Get_unfold in *.
    destruct (filter _ (parcel db)); [reflexivity | now destruct H].
Qed.

Lemma sequence_run o db : sequence db <= sequence (run o db).
Proof.
  destruct o as [p|k|c|k s|k a|k]; cbn [run]; try lia.
  - destruct (Add_cases p db) as [[_ ->]|[_ ->]]; cbn [snd sequence]; lia.
  - rewrite SetStatus_rows; cbn [snd sequence]; lia.
  - rewrite SetAddress_rows; cbn [snd sequence]; lia.
  - rewrite Delete_rows; cbn [snd sequence]; lia.
Qed.

Lemma sequence_runs os : forall db,
  sequence db <= sequence (fold_left (fun d o => run o d) os db).
Proof.
  induction os as [|o os IH]; intros db; simpl; [lia|].
  pose proof (sequence_run o db). pose proof (IH (run o db)). lia.
Qed.

Lemma wf_runs os : forall db,
  wf db -> wf (fold_left (fun d o => run o d) os db).
Proof.
  induction os as [|o os IH]; intros db Hwf; simpl; [exact Hwf|].
  apply IH. now apply wf_run.
Qed.

(** A number is handed out once: on a table that satisfies its invariant,
    after [Add] has returned [N], whatever calls follow (deleting the parcel
    included), a later successful [Add] returns a number larger than [N]. *)
Theorem numbers_never_reused p q os db N db1 N' db2 :
  wf db ->
  Add p db = ((N, None), db1) ->
  Add q (fold_left (fun d o => run o d) os db1) = ((N', None), db2) ->
  N < N'.
Proof.
  intros Hwf H1 H2.
  pose proof (wf_Add p db Hwf) as Hwf1. rewrite H1 in Hwf1; cbn [snd] in Hwf1.
  pose proof (wf_runs os db1 Hwf1) as Hwf2.
  pose proof (sequence_runs os db1) as Hmono.
  destruct (Add_cases p db) as [[_ E]|[Hlt _]];
    [rewrite E in H1; discriminate|].
  rewrite (Add_ok p db Hwf Hlt) in H1. injection H1 as HN Hdb.
  destruct (Add_cases q (fold_left (fun d o => run o d) os db1))
    as [[_ E]|[Hlt' _]]; [rewrite E in H2; discriminate|].
  rewrite (Add_ok q _ Hwf2 Hlt') in H2. injection H2 as HN' _.
  rewrite <- Hdb in Hmono at 1. cbn [sequence] in Hmono. lia.
Qed.

Lemma numbers_never_reused_witness : 3 < 4.
Proof.
  apply (numbers_never_reused
           (getTestParcel "2024-01-01T00:00:00Z")
           (getTestParcel "2024-01-02T00:00:00Z")
           [OpDelete 3] sample 3
           (snd (Add (getTestParcel "2024-01-01T00:00:00Z") sample)) 4
           (snd (Add (getTestParcel "2024-01-02T00:00:00Z")
                     (run (OpDelete 3)
                          (snd (Add (getTestParcel "2024-01-01T00:00:00Z")
                                    sample))))));
    [exact wf_sample | reflexivity | reflexivity].
Defined.
